(** * The tutorial problem [example0_g] of problem_sandbox.cpp

    The source defines one user problem, a struct without data members whose
    methods describe the minimisation of

      f = x1^2 + x2^2 + x3^2 + x4^2   in the box   -10 <= xi <= 10,

    together with its analytic gradient and the sparsity pattern of that
    gradient.  This file embeds the struct method by method and states the
    properties of the specification about it.

    Conventions of the embedding.
    - A call either returns, throws, or has undefined behaviour ([outcome]).
      The unchecked [operator[]] of [std::vector] is the only source of
      undefined behaviour in the struct; no method contains a [throw].
    - A method body is a computation over the memory it can reach that
      outlives the call ([method]): the object [*this] and, for [fitness] and
      [gradient], the caller's vector bound to the reference parameter [x].
      Local variables ([retval], [lb], [ub], [s], [i]) are let-bound values.
    - The element type of [decision_vector] is declared in include/types.hpp,
      which is not among the sources.  The bodies are therefore written once
      over the operations they use ([Scalar]) and read at two carriers: the
      binary64 floating-point numbers, which is what the C++ program
      computes with ([double]), and the real numbers, the exact arithmetic
      of which the program is the rounded version. *)

From Stdlib Require Import ZArith List String Ascii Bool Lia.
From Stdlib Require Import Floats.
From Stdlib Require Import Reals Lra.
From Equations Require Import Equations.
Import ListNotations.

Set Implicit Arguments.

(** ** Outcomes and the method monad *)

(** The error conditions the specification names (section 7).  None of them
    is raised anywhere in the source; the type is what a caller could
    observe, so that "signals DimensionMismatch" can be stated at all. *)
Inductive exception : Set :=
| DimensionMismatch
| BoundsInvalid
| UnsupportedCapability.

Inductive outcome (A : Type) : Type :=
| Returns (a : A)
| Throws (e : exception)
| Undefined.

Arguments Returns {A} a.
Arguments Throws {A} e.
Arguments Undefined {A}.

(** [method St A]: a method body that runs on the reachable memory [St] and
    yields an [A]. *)
Definition method (St A : Type) : Type := St -> outcome A * St.

Definition ret {St A} (a : A) : method St A := fun s => (Returns a, s).

Definition bind {St A B} (m : method St A) (k : A -> method St B) : method St B :=
  fun s =>
    match m s with
    | (Returns a, s') => k a s'
    | (Throws e, s') => (Throws e, s')
    | (Undefined, s') => (Undefined, s')
    end.

Declare Scope method_scope.
Delimit Scope method_scope with method.
Notation "v <- m ;; k" := (bind m (fun v => k))
  (at level 61, m at next level, right associativity) : method_scope.

(** Lifting of a binary operator to operands that are themselves evaluated
    in the monad, left operand first. *)
Definition lift2 {St A} (op : A -> A -> A) (a b : method St A) : method St A :=
  (u <- a ;; v <- b ;; ret (op u v))%method.

(** ** std::vector *)

(** [std::vector<T> v(n, a)]. *)
Definition vector_fill {T} (n : nat) (a : T) : list T := repeat a n.

(** [v[i]] as an rvalue; [None] is the out-of-range access. *)
Definition subscript {T} (v : list T) (i : nat) : option T := nth_error v i.

(** [v[i] = a]; [None] is the out-of-range access. *)
Definition subscript_assign {T} (v : list T) (i : nat) (a : T) : option (list T) :=
  if (i <? List.length v)%nat then Some (firstn i v ++ a :: skipn (S i) v)%list else None.

(** [v.push_back(a)]. *)
Definition push_back {T} (v : list T) (a : T) : list T := (v ++ [a])%list.

Definition defined {St A} (o : option A) : method St A :=
  fun s => match o with Some a => (Returns a, s) | None => (Undefined, s) end.

(** ** The arithmetic the bodies use *)

Class Scalar (T : Type) : Type := {
  of_int : Z -> T;          (* conversion of an [int] literal *)
  add : T -> T -> T;
  mul : T -> T -> T
}.

(** binary64, the [double] of the program. *)
Definition double : Set := float.

Definition double_of_int (z : Z) : double :=
  match z with
  | Z0 => 0%float
  | Zpos p => PrimFloat.of_uint63 (Uint63Axioms.of_pos p)
  | Zneg p => (- PrimFloat.of_uint63 (Uint63Axioms.of_pos p))%float
  end.

#[export] Instance Scalar_double : Scalar double :=
  {| of_int := double_of_int; add := PrimFloat.add; mul := PrimFloat.mul |}.

(** Exact arithmetic. *)
#[export] Instance Scalar_R : Scalar R :=
  {| of_int := IZR; add := Rplus; mul := Rmult |}.

(** ** The struct *)

(** [struct example0_g] declares no data member. *)
Record example0_g : Set := Build_example0_g { }.

Definition size_type : Set := Z.
Definition sparsity_pattern : Set := list (Z * Z).

(** [auto i = 0u] is an [unsigned int]; [++i] wraps at 2^32. *)
Definition uint_succ (i : Z) : Z := ((i + 1) mod 2 ^ 32)%Z.

Section Example0.

Context {T : Type} {arith : Scalar T}.

Definition decision_vector : Type := list T.
Definition fitness_vector : Type := list T.
Definition gradient_vector : Type := list T.

(** What [fitness] and [gradient] can reach: the object and the vector
    their parameter [const decision_vector &x] refers to. *)
Record frame : Type := { this : example0_g; x : decision_vector }.

(** [x[i]] inside a method with the parameter [x]. *)
Definition x_at (i : nat) : method frame T :=
  fun s => defined (subscript (x s) i) s.

Definition lit {St} (z : Z) : method St T := ret (of_int z).

Local Open Scope method_scope.
Local Infix "[*]" := (lift2 mul) (at level 40, left associativity).
Local Infix "[+]" := (lift2 add) (at level 50, left associativity).

(** [[
    fitness_vector retval(1);
    retval[0] = x[0]*x[0] + x[1]*x[1] + x[2]*x[2] + x[3]*x[3];
    return retval;
    ]] *)
Definition fitness : method frame fitness_vector :=
  let retval := vector_fill 1 (of_int 0) in
  v <- x_at 0 [*] x_at 0 [+] x_at 1 [*] x_at 1 [+] x_at 2 [*] x_at 2 [+] x_at 3 [*] x_at 3 ;;
  retval <- defined (subscript_assign retval 0 v) ;;
  ret retval.

(** [[
    gradient_vector retval(4,0.);
    retval[0] = 2 * x[0]; ... retval[3] = 2 * x[3];
    return retval;
    ]] *)
Definition gradient : method frame gradient_vector :=
  let retval := vector_fill 4 (of_int 0) in
  v <- lit 2 [*] x_at 0 ;; retval <- defined (subscript_assign retval 0 v) ;;
  v <- lit 2 [*] x_at 1 ;; retval <- defined (subscript_assign retval 1 v) ;;
  v <- lit 2 [*] x_at 2 ;; retval <- defined (subscript_assign retval 2 v) ;;
  v <- lit 2 [*] x_at 3 ;; retval <- defined (subscript_assign retval 3 v) ;;
  ret retval.

(** [[
    decision_vector lb{-10,-10,-10,-10};
    decision_vector ub{ 10, 10, 10, 10};
    return std::pair<decision_vector, decision_vector>(std::move(lb), std::move(ub));
    ]] *)
Definition get_bounds : method example0_g (decision_vector * decision_vector) :=
  let lb := [of_int (-10); of_int (-10); of_int (-10); of_int (-10)] in
  let ub := [of_int 10; of_int 10; of_int 10; of_int 10] in
  ret (lb, ub).

(** [return std::vector<decision_vector>{decision_vector{0,0,0,0}};] *)
Definition best_known : method example0_g (list decision_vector) :=
  ret [[of_int 0; of_int 0; of_int 0; of_int 0]].

End Example0.

Arguments decision_vector T : clear implicits.
Arguments fitness_vector T : clear implicits.
Arguments gradient_vector T : clear implicits.
Arguments frame T : clear implicits.

(** Iterations the loop of [dsparsity] still has to run when its counter
    is [i]. *)
Definition remaining (i : Z) : nat := Z.to_nat (4 - i).

(** The loop of [dsparsity]:
    [for (auto i=0u; i<4u; ++i) retval.push_back(std::pair<long, long>(0, i));] *)
Equations dsparsity_loop (i : Z) (retval : sparsity_pattern) : sparsity_pattern
  by wf (remaining i) lt :=
  dsparsity_loop i retval with Z_lt_dec i 4 := {
    | left _ => dsparsity_loop (uint_succ i) (push_back retval (0%Z, i));
    | right _ => retval }.
Next Obligation.
  unfold remaining, uint_succ.
  destruct (Z_lt_dec i (-1)) as [Hneg | Hpos].
  - pose proof (Z.mod_pos_bound (i + 1) (2 ^ 32) eq_refl). lia.
  - destruct (Z.eq_dec i (-1)) as [-> | Hne]; [simpl; lia |].
    rewrite Z.mod_small by lia. lia.
Qed.

(** [[
    sparsity_pattern retval;
    for (...) {...}
    return retval;
    ]] *)
Definition dsparsity : method example0_g sparsity_pattern :=
  let retval := [] in
  let retval := dsparsity_loop 0 retval in
  ret retval.

(** [return 4u;] *)
Definition get_n : method example0_g size_type := ret 4%Z.

(** [return 1u;] *)
Definition get_nf : method example0_g size_type := ret 1%Z.

(** [return std::string("My Problem");] *)
Definition get_name : method example0_g string := ret "My Problem"%string.

Definition newline : string := String (ascii_of_nat 10) EmptyString.

(** [s << a] on a [std::ostringstream], as the text accumulated so far. *)
Definition shl (s a : string) : string := (s ++ a)%string.

(** [[
    std::ostringstream s;
    s << "This is a simple toy problem with one fitness, " << '\n';
    s << "no constraint and a fixed dimension of 4." << "\n";
    s << "The fitness function gradients are also implemented" << "\n";
    return s.str();
    ]] *)
Definition extra_info : method example0_g string :=
  let s := EmptyString in
  let s := shl (shl s "This is a simple toy problem with one fitness, ") newline in
  let s := shl (shl s "no constraint and a fixed dimension of 4.") newline in
  let s := shl (shl s "The fitness function gradients are also implemented") newline in
  ret s.

(** ** Calls as the caller sees them *)

(** [p.m(x)]: the outcome of a method with the parameter [x]. *)
Definition call1 {T A} (m : method (frame T) A) (p : example0_g) (v : decision_vector T) : outcome A :=
  fst (m {| this := p; x := v |}).

(** [p.m()]. *)
Definition call0 {A} (m : method example0_g A) (p : example0_g) : outcome A :=
  fst (m p).

(** The calls a client can make on the object, and what each one answers. *)
Inductive request : Type :=
| Fitness (v : decision_vector double)
| Gradient (v : decision_vector double)
| Dsparsity
| Get_n
| Get_nf
| Get_bounds
| Get_name
| Extra_info
| Best_known.

Inductive response : Type :=
| Vector_result (o : outcome (list double))
| Pattern_result (o : outcome sparsity_pattern)
| Size_result (o : outcome size_type)
| Bounds_result (o : outcome (decision_vector double * decision_vector double))
| String_result (o : outcome string)
| Points_result (o : outcome (list (decision_vector double))).

(** What is left after a call: the answer, the object, and the vector that
    was passed by reference (if any). *)
Record observation : Type := {
  result : response;
  object_after : example0_g;
  argument_after : option (decision_vector double)
}.

Definition observe1 (m : method (frame double) (list double)) (p : example0_g)
    (v : decision_vector double) : observation :=
  let (o, s) := m {| this := p; x := v |} in
  {| result := Vector_result o; object_after := this s; argument_after := Some (x s) |}.

Definition observe0 {A} (m : method example0_g A) (wrap : outcome A -> response)
    (p : example0_g) : observation :=
  let (o, p') := m p in
  {| result := wrap o; object_after := p'; argument_after := None |}.

Definition perform (p : example0_g) (r : request) : observation :=
  match r with
  | Fitness v => observe1 fitness p v
  | Gradient v => observe1 gradient p v
  | Dsparsity => observe0 dsparsity Pattern_result p
  | Get_n => observe0 get_n Size_result p
  | Get_nf => observe0 get_nf Size_result p
  | Get_bounds => observe0 get_bounds Bounds_result p
  | Get_name => observe0 get_name String_result p
  | Extra_info => observe0 extra_info String_result p
  | Best_known => observe0 best_known Points_result p
  end.

Definition argument_of (r : request) : option (decision_vector double) :=
  match r with
  | Fitness v | Gradient v => Some v
  | _ => None
  end.

(** The object after a sequence of calls. *)
Fixpoint run (p : example0_g) (rs : list request) : example0_g :=
  match rs with
  | [] => p
  | r :: rs' => run (object_after (perform p r)) rs'
  end.

(** ** Readings used in the statements *)

(** [a^2] in binary64: the correctly rounded product [a * a]. *)
Definition square (a : double) : double := (a * a)%float.

(** [decision_vector{0,0,0,0}] and [decision_vector{2,2,2,2}]. *)
Definition origin : decision_vector double := [0; 0; 0; 0]%float.
Definition all_twos : decision_vector double := [2; 2; 2; 2]%float.

(** 2^-600, a normal binary64 number inside the box [-10, 10]. *)
Definition tiny : double := 0x1p-600%float.

(** [x = [0,0,0,0]] up to the sign of zero: every component compares equal
    to zero. *)
Definition at_origin (v : decision_vector double) : Prop :=
  Forall (fun a => (a =? 0)%float = true) v.

Definition nan_free (v : decision_vector double) : Prop :=
  Forall (fun a => PrimFloat.is_nan a = false) v.

(** A binary64 value that is +0, a positive finite number or +infinity. *)
Definition sign_plus (f : spec_float) : Prop :=
  match f with
  | S754_zero false | S754_infinity false | S754_finite false _ _ => True
  | _ => False
  end.

(** Entry [k] of a returned vector of reals (0 when nothing is returned). *)
Definition component (o : outcome (list R)) (k : nat) : R :=
  match o with
  | Returns v => nth k v 0%R
  | _ => 0%R
  end.

(** The vector [y] with entry [k] replaced by [t]. *)
Definition with_entry (y : list R) (k : nat) (t : R) : list R :=
  (firstn k y ++ t :: skipn (S k) y)%list.

(** [l] is the partial derivative of [f] with respect to variable [k] at
    the point [y]. *)
Definition partial_derivative (f : list R -> R) (k : nat) (y : list R) (l : R) : Prop :=
  derivable_pt_lim (fun t => f (with_entry y k t)) (nth k y 0%R) l.

(** The vector with every component negated. *)
Definition negate (v : decision_vector double) : decision_vector double :=
  map PrimFloat.opp v.

(** A function applied to what a call returns. *)
Definition outcome_map {A B} (f : A -> B) (o : outcome A) : outcome B :=
  match o with
  | Returns a => Returns (f a)
  | Throws e => Throws e
  | Undefined => Undefined
  end.

(** The pairs (0,i), (0,i+1), ..., (0,3); empty from 4 on. *)
Definition pairs_from (i : Z) : sparsity_pattern :=
  map (fun n => (0%Z, (i + Z.of_nat n)%Z)) (seq 0 (Z.to_nat (4 - i))).

(** A binary64 value that is +infinity; one that is NaN or has the sign
    bit clear. *)
Definition plus_infinite (u : double) : Prop := Prim2SF u = S754_infinity false.

Definition nan_or_plus (u : double) : Prop :=
  Prim2SF u = S754_nan \/ sign_plus (Prim2SF u).

(** A binary64 value that is positive: finite and not zero, or +infinity. *)
Definition plus_nonzero (f : spec_float) : Prop :=
  match f with
  | S754_infinity false | S754_finite false _ _ => True
  | _ => False
  end.

(** ** The vector as the compiled methods reach it

    A [std::vector<double>] is a buffer in the heap and a size, and
    [operator[]] adds the index to the address of the buffer and loads from
    there without looking at the size.  The memory below is the heap as an
    array of doubles, [None] where nothing is mapped; [fitness_in_memory]
    and [gradient_in_memory] are the two bodies again, with [x[i]] read
    that way. *)
Definition address : Set := nat.
Definition memory : Type := address -> option double.

Record vector_ref : Set := { data : address; size : nat }.

Definition load (a : address) : method memory double :=
  fun m => defined (m a) m.

(** [x[i]]: the cell [i] places after the start of the buffer. *)
Definition element (r : vector_ref) (i : nat) : method memory double :=
  load (data r + i).

Definition fitness_in_memory (r : vector_ref) : method memory (fitness_vector double) :=
  let retval := vector_fill 1 (of_int 0) in
  (v <- lift2 add (lift2 add (lift2 add
         (lift2 mul (element r 0) (element r 0))
         (lift2 mul (element r 1) (element r 1)))
         (lift2 mul (element r 2) (element r 2)))
         (lift2 mul (element r 3) (element r 3)) ;;
   retval <- defined (subscript_assign retval 0 v) ;;
   ret retval)%method.

Definition gradient_in_memory (r : vector_ref) : method memory (gradient_vector double) :=
  let retval := vector_fill 4 (of_int 0) in
  (v <- lift2 mul (lit 2) (element r 0) ;; retval <- defined (subscript_assign retval 0 v) ;;
   v <- lift2 mul (lit 2) (element r 1) ;; retval <- defined (subscript_assign retval 1 v) ;;
   v <- lift2 mul (lit 2) (element r 2) ;; retval <- defined (subscript_assign retval 2 v) ;;
   v <- lift2 mul (lit 2) (element r 3) ;; retval <- defined (subscript_assign retval 3 v) ;;
   ret retval)%method.

(** The memory [m] holds the vector [v] behind the reference [r]. *)
Definition holds (m : memory) (r : vector_ref) (v : decision_vector double) : Prop :=
  size r = List.length v /\
  forall i a, nth_error v i = Some a -> m (data r + i) = Some a.

(** A heap whose first cells are the given doubles and that ends there. *)
Definition memory_of (cells : list double) : memory :=
  fun a => nth_error cells a.

Unset Implicit Arguments.

(** * Properties *)

(** ** How the bodies run, at any carrier *)

Section Runs.

Context {T : Type} {arith : Scalar T}.
Implicit Types (p : example0_g) (v : decision_vector T) (fr : frame T).

Lemma at_least_four v :
  (4 <= List.length v)%nat -> exists a b c d rest, v = a :: b :: c :: d :: rest.
Proof.
  destruct v as [|a [|b [|c [|d rest]]]]; simpl; intros H; try lia.
  now exists a, b, c, d, rest.
Qed.

Lemma exactly_four v :
  List.length v = 4%nat -> exists a b c d, v = [a; b; c; d].
Proof.
  destruct v as [|a [|b [|c [|d [|e rest]]]]]; simpl; intros H; try lia.
  now exists a, b, c, d.
Qed.

Lemma fitness_run p a b c d rest :
  fitness {| this := p; x := a :: b :: c :: d :: rest |}
  = (Returns [add (add (add (mul a a) (mul b b)) (mul c c)) (mul d d)],
     {| this := p; x := a :: b :: c :: d :: rest |}).
Proof. reflexivity. Qed.

Lemma gradient_run p a b c d rest :
  gradient {| this := p; x := a :: b :: c :: d :: rest |}
  = (Returns [mul (of_int 2) a; mul (of_int 2) b; mul (of_int 2) c; mul (of_int 2) d],
     {| this := p; x := a :: b :: c :: d :: rest |}).
Proof. reflexivity. Qed.

Lemma fitness_short fr :
  (List.length (x fr) < 4)%nat -> fitness fr = (Undefined, fr).
Proof.
  destruct fr as [p [|a [|b [|c [|d rest]]]]]; simpl; intros H;
    try reflexivity; lia.
Qed.

Lemma gradient_short fr :
  (List.length (x fr) < 4)%nat -> gradient fr = (Undefined, fr).
Proof.
  destruct fr as [p [|a [|b [|c [|d rest]]]]]; simpl; intros H;
    try reflexivity; lia.
Qed.

(** Neither body writes to the object or to the vector behind [x]. *)
Lemma fitness_frame fr : snd (fitness fr) = fr.
Proof.
  destruct (le_lt_dec 4 (List.length (x fr))) as [Hlong | Hshort].
  - destruct fr as [p v]; simpl in Hlong.
    destruct (at_least_four v Hlong) as (a & b & c & d & rest & ->).
    now rewrite fitness_run.
  - now rewrite fitness_short.
Qed.

Lemma gradient_frame fr : snd (gradient fr) = fr.
Proof.
  destruct (le_lt_dec 4 (List.length (x fr))) as [Hlong | Hshort].
  - destruct fr as [p v]; simpl in Hlong.
    destruct (at_least_four v Hlong) as (a & b & c & d & rest & ->).
    now rewrite gradient_run.
  - now rewrite gradient_short.
Qed.

Lemma call_fitness_long p a b c d rest :
  call1 fitness p (a :: b :: c :: d :: rest)
  = Returns [add (add (add (mul a a) (mul b b)) (mul c c)) (mul d d)].
Proof. reflexivity. Qed.

Lemma call_gradient_long p a b c d rest :
  call1 gradient p (a :: b :: c :: d :: rest)
  = Returns [mul (of_int 2) a; mul (of_int 2) b; mul (of_int 2) c; mul (of_int 2) d].
Proof. reflexivity. Qed.

Lemma call_fitness_undefined p v :
  call1 fitness p v = Undefined <-> (List.length v < 4)%nat.
Proof.
  split.
  - intros H. destruct (le_lt_dec 4 (List.length v)) as [Hlong | Hshort]; [|assumption].
    destruct (at_least_four v Hlong) as (a & b & c & d & rest & ->).
    rewrite call_fitness_long in H. discriminate.
  - intros H. unfold call1. now rewrite fitness_short.
Qed.

Lemma call_gradient_undefined p v :
  call1 gradient p v = Undefined <-> (List.length v < 4)%nat.
Proof.
  split.
  - intros H. destruct (le_lt_dec 4 (List.length v)) as [Hlong | Hshort]; [|assumption].
    destruct (at_least_four v Hlong) as (a & b & c & d & rest & ->).
    rewrite call_gradient_long in H. discriminate.
  - intros H. unfold call1. now rewrite gradient_short.
Qed.

Lemma call_fitness_never_throws p v e : call1 fitness p v <> Throws e.
Proof.
  destruct (le_lt_dec 4 (List.length v)) as [Hlong | Hshort].
  - destruct (at_least_four v Hlong) as (a & b & c & d & rest & ->).
    rewrite call_fitness_long. discriminate.
  - apply (proj2 (call_fitness_undefined p v)) in Hshort. rewrite Hshort. discriminate.
Qed.

Lemma call_gradient_never_throws p v e : call1 gradient p v <> Throws e.
Proof.
  destruct (le_lt_dec 4 (List.length v)) as [Hlong | Hshort].
  - destruct (at_least_four v Hlong) as (a & b & c & d & rest & ->).
    rewrite call_gradient_long. discriminate.
  - apply (proj2 (call_gradient_undefined p v)) in Hshort. rewrite Hshort. discriminate.
Qed.

End Runs.

Lemma dsparsity_run (p : example0_g) :
  dsparsity p = (Returns [(0, 0); (0, 1); (0, 2); (0, 3)]%Z, p).
Proof.
  unfold dsparsity. simp dsparsity_loop. reflexivity.
Qed.

(** ** Calls leave the object and the argument alone *)

Lemma perform_preserves (p : example0_g) (r : request) :
  object_after (perform p r) = p /\ argument_after (perform p r) = argument_of r.
Proof.
  destruct r; try (split; reflexivity); unfold perform, observe1.
  - pose proof (fitness_frame {| this := p; x := v |}) as H.
    destruct (fitness _) as [o s]; simpl in *. subst s. split; reflexivity.
  - pose proof (gradient_frame {| this := p; x := v |}) as H.
    destruct (gradient _) as [o s]; simpl in *. subst s. split; reflexivity.
Qed.

Lemma run_fixes_object (p : example0_g) (rs : list request) : run p rs = p.
Proof.
  revert p. induction rs as [|r rs IH]; intros p; simpl; [reflexivity|].
  rewrite IH. apply perform_preserves.
Qed.

(** ** binary64: the sign of a rounded result *)

Section Rounding.

Variables prec emax : Z.

Lemma shr_1_nonneg mrs : (0 <= shr_m mrs)%Z -> (0 <= shr_m (shr_1 mrs))%Z.
Proof.
  destruct mrs as [m r s]; simpl.
  destruct m as [|[q|q|]|[q|q|]]; simpl; lia.
Qed.

Lemma iter_shr_1_nonneg n mrs :
  (0 <= shr_m mrs)%Z -> (0 <= shr_m (SpecFloat.iter_pos shr_1 n mrs))%Z.
Proof.
  revert mrs. induction n as [n IH | n IH |]; intros mrs H; simpl.
  - apply IH, IH, shr_1_nonneg, H.
  - apply IH, IH, H.
  - apply shr_1_nonneg, H.
Qed.

Lemma shr_fexp_nonneg m e l :
  (0 <= m)%Z -> (0 <= shr_m (fst (shr_fexp prec emax m e l)))%Z.
Proof.
  intros Hm. unfold shr_fexp, shr.
  assert (H0 : (0 <= shr_m (shr_record_of_loc m l))%Z)
    by (destruct l as [|[| |]]; exact Hm).
  destruct (fexp prec emax (Zdigits2 m + e) - e)%Z; simpl; trivial.
  apply iter_shr_1_nonneg, H0.
Qed.

Lemma round_nearest_even_nonneg m l :
  (0 <= m)%Z -> (0 <= round_nearest_even m l)%Z.
Proof.
  intros Hm. unfold round_nearest_even.
  destruct l as [|[| |]]; try destruct (Z.even m); lia.
Qed.

(** Rounding a non-negative mantissa with the sign bit clear never
    produces a NaN or a negative value. *)
Lemma binary_round_aux_plus m e l :
  (0 <= m)%Z -> sign_plus (binary_round_aux prec emax false m e l).
Proof.
  intros Hm. unfold binary_round_aux.
  pose proof (shr_fexp_nonneg m e l Hm) as H1.
  destruct (shr_fexp prec emax m e l) as [mrs' e']; simpl in H1.
  pose proof (shr_fexp_nonneg
                (round_nearest_even (shr_m mrs') (loc_of_shr_record mrs')) e' loc_Exact
                (round_nearest_even_nonneg _ _ H1)) as H2.
  destruct (shr_fexp prec emax _ e' loc_Exact) as [mrs'' e'']; simpl in H2.
  destruct (shr_m mrs'') as [|q|q]; simpl; try exact I; try lia.
  destruct (e'' <=? emax - prec)%Z; exact I.
Qed.

Lemma SFmul_self_plus f : f <> S754_nan -> sign_plus (SFmul prec emax f f).
Proof.
  intros Hf. destruct f as [s|s| |s m e]; simpl.
  - now rewrite xorb_nilpotent.
  - now rewrite xorb_nilpotent.
  - now elim Hf.
  - rewrite xorb_nilpotent. apply binary_round_aux_plus. lia.
Qed.

Lemma SFadd_plus f g :
  sign_plus f -> sign_plus g -> sign_plus (SFadd prec emax f g).
Proof.
  destruct f as [[|]|[|]| |[|] m e]; simpl; try contradiction;
    destruct g as [[|]|[|]| |[|] n e']; simpl; try contradiction; trivial.
  intros _ _. unfold binary_round.
  destruct (shl_align _ _ _) as [mz ez].
  apply binary_round_aux_plus. lia.
Qed.

End Rounding.

Lemma SFleb_zero_plus f : sign_plus f -> SFleb (S754_zero false) f = true.
Proof.
  destruct f as [[|]|[|]| |[|] m e]; simpl; try contradiction; reflexivity.
Qed.

Lemma not_nan_spec (a : double) :
  PrimFloat.is_nan a = false -> Prim2SF a <> S754_nan.
Proof.
  unfold PrimFloat.is_nan. rewrite eqb_spec. intros H Hn.
  rewrite Hn in H. discriminate.
Qed.

Lemma square_plus (a : double) :
  PrimFloat.is_nan a = false -> sign_plus (Prim2SF (square a)).
Proof.
  intros H. unfold square. rewrite mul_spec.
  apply SFmul_self_plus, not_nan_spec, H.
Qed.

Lemma add_plus (a b : double) :
  sign_plus (Prim2SF a) -> sign_plus (Prim2SF b) -> sign_plus (Prim2SF (a + b)).
Proof.
  intros Ha Hb. rewrite add_spec. now apply SFadd_plus.
Qed.

Lemma zero_leb_plus (a : double) :
  sign_plus (Prim2SF a) -> (0 <=? a)%float = true.
Proof.
  intros H. rewrite leb_spec. apply SFleb_zero_plus, H.
Qed.

Lemma eqb_zero_spec (a : double) :
  (a =? 0)%float = true -> exists s, Prim2SF a = S754_zero s.
Proof.
  rewrite eqb_spec. change (Prim2SF 0) with (S754_zero false).
  destruct (Prim2SF a) as [s|[|]| |[|] m e]; try discriminate.
  intros _. now exists s.
Qed.

(** The square of either zero is +0. *)
Lemma square_of_zero (a : double) :
  (a =? 0)%float = true -> square a = 0%float.
Proof.
  intros H. destruct (eqb_zero_spec a H) as [s Hs].
  apply Prim2SF_inj. unfold square. rewrite mul_spec, Hs. simpl.
  now rewrite xorb_nilpotent.
Qed.

(** ** Exact arithmetic: the objective and its derivative *)

Lemma derivable_square_plus (f : R -> R) (c t0 : R) :
  (forall t, f t = t * t + c)%R -> derivable_pt_lim f t0 (2 * t0)%R.
Proof.
  intros Hf eps Heps. exists (mkposreal eps Heps). intros h Hh Hlt.
  simpl in Hlt. rewrite !Hf.
  replace (((t0 + h) * (t0 + h) + c - (t0 * t0 + c)) / h - 2 * t0)%R with h
    by (field; assumption).
  assumption.
Qed.

Lemma exact_gradient_is_derivative (p : example0_g) (y : decision_vector R) (k : nat) :
  List.length y = 4%nat -> (k < 4)%nat ->
  partial_derivative (fun z => component (call1 fitness p z) 0) k y
                     (component (call1 gradient p y) k).
Proof.
  intros Hy Hk. destruct (exactly_four y Hy) as (a & b & c & d & ->).
  unfold partial_derivative.
  destruct k as [|[|[|[|k]]]]; try lia; simpl.
  - apply derivable_square_plus with (c := (b * b + c * c + d * d)%R). intros t. ring.
  - apply derivable_square_plus with (c := (a * a + c * c + d * d)%R). intros t. ring.
  - apply derivable_square_plus with (c := (a * a + b * b + d * d)%R). intros t. ring.
  - apply derivable_square_plus with (c := (a * a + b * b + c * c)%R). intros t. ring.
Qed.

(** In exact arithmetic the origin is the only minimiser. *)
Lemma exact_objective_minimum (p : example0_g) (y : decision_vector R) :
  List.length y = 4%nat ->
  exists f : R,
    call1 fitness p y = Returns [f] /\ (0 <= f)%R /\
    (f = 0%R <-> y = [0; 0; 0; 0]%R).
Proof.
  intros Hy. destruct (exactly_four y Hy) as (a & b & c & d & ->).
  eexists. split; [reflexivity|]. simpl.
  pose proof (Rle_0_sqr a) as Ha. pose proof (Rle_0_sqr b) as Hb.
  pose proof (Rle_0_sqr c) as Hc. pose proof (Rle_0_sqr d) as Hd.
  unfold Rsqr in *.
  split; [lra|]. split.
  - intros H.
    assert (Ea : (a * a = 0)%R) by lra. assert (Eb : (b * b = 0)%R) by lra.
    assert (Ec : (c * c = 0)%R) by lra. assert (Ed : (d * d = 0)%R) by lra.
    apply Rsqr_0_uniq in Ea, Eb, Ec, Ed. now subst.
  - intros H. injection H as -> -> -> ->. ring.
Qed.

(** ** binary64: a sum of positive numbers is not zero *)

Section NoUnderflow.
Variables prec emax : Z.
Hypothesis prec_pos : (0 < prec)%Z.

Lemma shr_1_digits mrs :
  (0 <= shr_m mrs)%Z ->
  Zdigits2 (shr_m (shr_1 mrs)) = Z.max 0 (Zdigits2 (shr_m mrs) - 1).
Proof.
  destruct mrs as [m r s].
  destruct m as [|[q|q|]|[q|q|]]; cbn [shr_m shr_1 Zdigits2 digits2_pos];
    intros H; rewrite ?Pos2Z.inj_succ; lia.
Qed.

Lemma iter_shr_1_digits n mrs :
  (0 <= shr_m mrs)%Z ->
  Zdigits2 (shr_m (SpecFloat.iter_pos shr_1 n mrs))
  = Z.max 0 (Zdigits2 (shr_m mrs) - Z.pos n).
Proof.
  revert mrs. induction n as [n IH | n IH |]; intros mrs H; simpl SpecFloat.iter_pos.
  - rewrite IH by (apply iter_shr_1_nonneg, shr_1_nonneg, H).
    rewrite IH by (apply shr_1_nonneg, H).
    rewrite shr_1_digits by exact H. lia.
  - rewrite IH by (apply iter_shr_1_nonneg, H).
    rewrite IH by exact H. lia.
  - rewrite shr_1_digits by exact H. lia.
Qed.

Lemma digits_pos_positive m : (0 <= m)%Z -> (0 < Zdigits2 m)%Z -> (0 < m)%Z.
Proof. destruct m; simpl; lia. Qed.

Lemma positive_digits m : (0 < m)%Z -> (0 < Zdigits2 m)%Z.
Proof. destruct m; simpl; lia. Qed.

Lemma shr_fexp_positive m e l :
  (0 < m)%Z -> (SpecFloat.emin prec emax <= e)%Z ->
  (0 < shr_m (fst (shr_fexp prec emax m e l)))%Z /\
  (SpecFloat.emin prec emax <= snd (shr_fexp prec emax m e l))%Z.
Proof.
  intros Hm He. unfold shr_fexp, shr.
  assert (H0 : shr_m (shr_record_of_loc m l) = m)
    by (destruct l as [|[| |]]; reflexivity).
  pose proof (positive_digits m Hm) as Hd.
  destruct (fexp prec emax (Zdigits2 m + e) - e)%Z as [|n|n] eqn:Hn; simpl;
    try (rewrite H0; split; [exact Hm | exact He]).
  unfold fexp in Hn. split; [|lia].
  apply digits_pos_positive.
  - apply iter_shr_1_nonneg. rewrite H0. lia.
  - rewrite iter_shr_1_digits by (rewrite H0; lia). rewrite H0. lia.
Qed.

Lemma round_nearest_even_positive m l :
  (0 < m)%Z -> (0 < round_nearest_even m l)%Z.
Proof.
  intros Hm. unfold round_nearest_even.
  destruct l as [|[| |]]; try destruct (Z.even m); lia.
Qed.

Lemma binary_round_aux_nonzero m e l :
  (0 < m)%Z -> (SpecFloat.emin prec emax <= e)%Z ->
  plus_nonzero (binary_round_aux prec emax false m e l).
Proof.
  intros Hm He. unfold binary_round_aux.
  destruct (shr_fexp_positive m e l Hm He) as [H1 E1].
  destruct (shr_fexp prec emax m e l) as [mrs' e']; simpl in H1, E1.
  destruct (shr_fexp_positive
              (round_nearest_even (shr_m mrs') (loc_of_shr_record mrs')) e' loc_Exact
              (round_nearest_even_positive _ _ H1) E1) as [H2 _].
  destruct (shr_fexp prec emax _ e' loc_Exact) as [mrs'' e'']; simpl in H2.
  destruct (shr_m mrs'') as [|q|q]; try lia.
  destruct (e'' <=? emax - prec)%Z; exact I.
Qed.

Lemma valid_exponent s m e :
  SpecFloat.valid_binary prec emax (S754_finite s m e) = true -> (SpecFloat.emin prec emax <= e)%Z.
Proof.
  simpl. unfold bounded, canonical_mantissa, fexp. intros H.
  apply andb_prop in H. destruct H as [H _]. apply Z.eqb_eq in H.
  unfold SpecFloat.fexp, SpecFloat.emin in *. lia.
Qed.

Lemma SFadd_finite_nonzero m e n e' :
  (SpecFloat.emin prec emax <= e)%Z -> (SpecFloat.emin prec emax <= e')%Z ->
  plus_nonzero (SFadd prec emax (S754_finite false m e) (S754_finite false n e')).
Proof.
  intros He He'. simpl. unfold binary_round.
  destruct (shl_align (fst (shl_align m e (Z.min e e')) + fst (shl_align n e' (Z.min e e')))
              (Z.min e e') _) as [mz ez] eqn:Hal.
  apply binary_round_aux_nonzero; [lia|].
  unfold shl_align in Hal.
  destruct (_ - Z.min e e')%Z in Hal; inversion Hal; subst; unfold fexp; lia.
Qed.

End NoUnderflow.

Lemma eqb_zero_iff (u : double) :
  (u =? 0)%float = true <-> exists s, Prim2SF u = S754_zero s.
Proof.
  split; [apply eqb_zero_spec|].
  intros [s Hs]. rewrite eqb_spec, Hs. reflexivity.
Qed.

Lemma plus_zero_eq (u : double) :
  sign_plus (Prim2SF u) -> ((u =? 0)%float = true <-> u = 0%float).
Proof.
  intros Hp. split.
  - intros H. destruct (eqb_zero_spec u H) as [s Hs].
    apply Prim2SF_inj. rewrite Hs in *. destruct s; [contradiction | reflexivity].
  - intros ->. reflexivity.
Qed.

Lemma add_zero_iff (u w : double) :
  sign_plus (Prim2SF u) -> sign_plus (Prim2SF w) ->
  ((u + w =? 0)%float = true <-> (u =? 0)%float = true /\ (w =? 0)%float = true).
Proof.
  intros Hu Hw. rewrite !eqb_spec, add_spec.
  pose proof (Prim2SF_valid u) as Vu. pose proof (Prim2SF_valid w) as Vw.
  change (Prim2SF 0) with (S754_zero false).
  destruct (Prim2SF u) as [[|]|[|]| |[|] m e]; simpl in Hu; try contradiction;
    destruct (Prim2SF w) as [[|]|[|]| |[|] n e']; simpl in Hw; try contradiction;
    try (cbn; intuition discriminate).
  pose proof (SFadd_finite_nonzero prec emax eq_refl m e n e'
                (valid_exponent prec emax false m e Vu)
                (valid_exponent prec emax false n e' Vw)) as Hnz.
  unfold SF64add.
  destruct (SFadd prec emax _ _) as [[|]|[|]| |[|] ? ?]; simpl in Hnz; try contradiction;
    cbn; intuition discriminate.
Qed.

Lemma sum_of_squares_zero_iff (a b c d : double) :
  nan_free [a; b; c; d] ->
  ((square a + square b + square c + square d)%float = 0%float
   <-> Forall (fun e => square e = 0%float) [a; b; c; d]).
Proof.
  intros Hnan.
  inversion_clear Hnan as [|? ? Ha Hnan1]. inversion_clear Hnan1 as [|? ? Hb Hnan2].
  inversion_clear Hnan2 as [|? ? Hc Hnan3]. inversion_clear Hnan3 as [|? ? Hd _].
  pose proof (square_plus a Ha) as Pa. pose proof (square_plus b Hb) as Pb.
  pose proof (square_plus c Hc) as Pc. pose proof (square_plus d Hd) as Pd.
  pose proof (add_plus _ _ Pa Pb) as Pab. pose proof (add_plus _ _ Pab Pc) as Pabc.
  pose proof (add_plus _ _ Pabc Pd) as Pf.
  rewrite <- (plus_zero_eq _ Pf).
  rewrite (add_zero_iff _ _ Pabc Pd), (add_zero_iff _ _ Pab Pc), (add_zero_iff _ _ Pa Pb).
  rewrite (plus_zero_eq _ Pa), (plus_zero_eq _ Pb), (plus_zero_eq _ Pc), (plus_zero_eq _ Pd).
  split.
  - intros [[[Za Zb] Zc] Zd]. repeat constructor; assumption.
  - intros H.
    inversion_clear H as [|? ? Za H1]. inversion_clear H1 as [|? ? Zb H2].
    inversion_clear H2 as [|? ? Zc H3]. inversion_clear H3 as [|? ? Zd _].
    repeat split; assumption.
Qed.

(** ** The bodies over the memory *)

Lemma fitness_in_memory_reads (m : memory) (r : vector_ref) (a b c d : double) :
  m (data r + 0) = Some a -> m (data r + 1) = Some b ->
  m (data r + 2) = Some c -> m (data r + 3) = Some d ->
  fitness_in_memory r m = (Returns [(a * a + b * b + c * c + d * d)%float], m).
Proof.
  intros Ha Hb Hc Hd.
  unfold fitness_in_memory, element, load, lift2, bind, defined, ret.
  repeat (first [rewrite Ha | rewrite Hb | rewrite Hc | rewrite Hd]; cbn).
  reflexivity.
Qed.

Lemma gradient_in_memory_reads (m : memory) (r : vector_ref) (a b c d : double) :
  m (data r + 0) = Some a -> m (data r + 1) = Some b ->
  m (data r + 2) = Some c -> m (data r + 3) = Some d ->
  gradient_in_memory r m = (Returns [2 * a; 2 * b; 2 * c; 2 * d]%float, m).
Proof.
  intros Ha Hb Hc Hd.
  unfold gradient_in_memory, element, load, lift2, lit, bind, defined, ret.
  repeat (first [rewrite Ha | rewrite Hb | rewrite Hc | rewrite Hd]; cbn).
  reflexivity.
Qed.

Lemma fitness_in_memory_refines (p : example0_g) (m : memory) (r : vector_ref)
    (v : decision_vector double) :
  holds m r v -> (4 <= List.length v)%nat ->
  fitness_in_memory r m = (call1 fitness p v, m).
Proof.
  intros [_ H] Hv. destruct (at_least_four v Hv) as (a & b & c & d & rest & ->).
  rewrite call_fitness_long.
  apply fitness_in_memory_reads; apply H; reflexivity.
Qed.

Lemma gradient_in_memory_refines (p : example0_g) (m : memory) (r : vector_ref)
    (v : decision_vector double) :
  holds m r v -> (4 <= List.length v)%nat ->
  gradient_in_memory r m = (call1 gradient p v, m).
Proof.
  intros [_ H] Hv. destruct (at_least_four v Hv) as (a & b & c & d & rest & ->).
  rewrite call_gradient_long.
  apply gradient_in_memory_reads; apply H; reflexivity.
Qed.

Lemma fitness_in_memory_keeps (m : memory) (r : vector_ref) :
  snd (fitness_in_memory r m) = m.
Proof.
  unfold fitness_in_memory, element, load, lift2, bind, defined, ret.
  repeat match goal with
         | |- context [m (data r + ?i)] => destruct (m (data r + i)); cbn
         end; reflexivity.
Qed.

Lemma gradient_in_memory_keeps (m : memory) (r : vector_ref) :
  snd (gradient_in_memory r m) = m.
Proof.
  unfold gradient_in_memory, element, load, lift2, lit, bind, defined, ret.
  repeat match goal with
         | |- context [m (data r + ?i)] => destruct (m (data r + i)); cbn
         end; reflexivity.
Qed.

Lemma memory_of_holds (v rest : list double) :
  holds (memory_of (v ++ rest)) {| data := 0; size := List.length v |} v.
Proof.
  split; [reflexivity|]. intros i a H. unfold memory_of. simpl.
  rewrite nth_error_app1; [exact H|].
  apply nth_error_Some. congruence.
Qed.

(** * The claims *)

(** C1.  For every decision vector [v] of length 4, [fitness(v)] returns a
    vector of length 1 whose single entry is
    [v[0]^2 + v[1]^2 + v[2]^2 + v[3]^2], the squares and the sums being those
    of binary64, added from left to right; and [fitness([2,2,2,2]) = [16]]. *)
Theorem fitness_is_sum_of_squares (p : example0_g) (v : decision_vector double) :
  List.length v = 4%nat ->
  exists f : fitness_vector double,
    call1 fitness p v = Returns f /\
    List.length f = 1%nat /\
    f = [ (square (nth 0 v 0) + square (nth 1 v 0)
           + square (nth 2 v 0) + square (nth 3 v 0))%float ] /\
    call1 fitness p all_twos = Returns [16%float].
Proof.
  intros Hv. destruct (exactly_four v Hv) as (a & b & c & d & ->).
  eexists. split; [apply call_fitness_long|].
  repeat split.
Qed.

Lemma fitness_is_sum_of_squares_witness :
  List.length [1; 2; 3; 4]%float = 4%nat /\
  exists f : fitness_vector double,
    call1 fitness Build_example0_g [1; 2; 3; 4]%float = Returns f /\
    List.length f = 1%nat /\
    f = [ (square 1 + square 2 + square 3 + square 4)%float ] /\
    call1 fitness Build_example0_g all_twos = Returns [16%float].
Proof.
  split; [reflexivity|].
  apply (fitness_is_sum_of_squares Build_example0_g [1; 2; 3; 4]%float).
  reflexivity.
Defined.

(** C2, as the code has it.  [fitness] has no length check and never signals
    [DimensionMismatch]: on a vector longer than 4 it returns the sum of the
    squares of the first four components and ignores the rest; on a vector
    shorter than 4 it reads out of range, which is undefined behaviour. *)
Theorem fitness_wrong_length (p : example0_g) (v : decision_vector double) :
  List.length v <> 4%nat ->
  call1 fitness p v <> Throws DimensionMismatch /\
  ((4 < List.length v)%nat ->
     call1 fitness p v
     = Returns [ (square (nth 0 v 0) + square (nth 1 v 0)
                  + square (nth 2 v 0) + square (nth 3 v 0))%float ] /\
     call1 fitness p v = call1 fitness p (firstn 4 v) /\
     exists f, call1 fitness p v = Returns [f]) /\
  ((List.length v < 4)%nat -> call1 fitness p v = Undefined).
Proof.
  intros _. split; [apply call_fitness_never_throws|]. split.
  - intros Hlong.
    destruct (at_least_four v) as (a & b & c & d & rest & ->); [lia|].
    split; [reflexivity|]. split; [reflexivity|]. eexists. apply call_fitness_long.
  - apply call_fitness_undefined.
Qed.

Lemma fitness_wrong_length_witness :
  List.length [1; 1; 1; 1; 7]%float <> 4%nat /\
  call1 fitness Build_example0_g [1; 1; 1; 1; 7]%float <> Throws DimensionMismatch /\
  call1 fitness Build_example0_g [1; 1; 1; 1; 7]%float
  = Returns [ (square 1 + square 1 + square 1 + square 1)%float ].
Proof.
  assert (H : List.length [1; 1; 1; 1; 7]%float <> 4%nat) by (simpl; lia).
  assert (H5 : (4 < List.length [1; 1; 1; 1; 7]%float)%nat) by (simpl; lia).
  destruct (fitness_wrong_length Build_example0_g [1; 1; 1; 1; 7]%float H)
    as (Hnever & Hlong & _).
  split; [exact H|]. split; [exact Hnever|].
  exact (proj1 (Hlong H5)).
Defined.

(** C2, as stated, fails: a vector of length 5 is accepted and its fifth
    component dropped, and on the specification's own example, a vector of
    length 3, no [DimensionMismatch] is signalled either. *)
Lemma fitness_accepts_length_5 :
  List.length [1; 1; 1; 1; 7]%float = 5%nat /\
  call1 fitness Build_example0_g [1; 1; 1; 1; 7]%float = Returns [4%float] /\
  call1 fitness Build_example0_g [1; 1; 1; 1; 7]%float <> Throws DimensionMismatch /\
  List.length [1; 2; 3]%float = 3%nat /\
  call1 fitness Build_example0_g [1; 2; 3]%float = Undefined /\
  call1 fitness Build_example0_g [1; 2; 3]%float <> Throws DimensionMismatch.
Proof.
  repeat split; discriminate.
Qed.

(** C3.  For every decision vector [v] of length 4, [gradient(v)] returns a
    vector of length 4 with entry [k] equal to [2 * v[k]]; pair [k] of the
    pattern of [dsparsity()] is [(0, k)], fitness component 0 and variable
    [k]; [gradient([2,2,2,2]) = [4,4,4,4]]; and, in exact arithmetic, entry
    [k] is the partial derivative of fitness component 0 with respect to
    variable [k]. *)
Theorem gradient_is_twice_x (p : example0_g) (v : decision_vector double) :
  List.length v = 4%nat ->
  exists (g : gradient_vector double) (pattern : sparsity_pattern),
    call1 gradient p v = Returns g /\
    List.length g = 4%nat /\
    call0 dsparsity p = Returns pattern /\
    (forall k, (k < 4)%nat ->
       nth_error g k = Some (2 * nth k v 0)%float /\
       nth_error pattern k = Some (0%Z, Z.of_nat k)) /\
    call1 gradient p all_twos = Returns [4; 4; 4; 4]%float /\
    (forall (y : decision_vector R) (k : nat),
       List.length y = 4%nat -> (k < 4)%nat ->
       partial_derivative (fun z => component (call1 fitness p z) 0) k y
                          (component (call1 gradient p y) k)).
Proof.
  intros Hv. destruct (exactly_four v Hv) as (a & b & c & d & ->).
  eexists. eexists.
  split; [apply call_gradient_long|].
  split; [reflexivity|].
  split; [unfold call0; rewrite dsparsity_run; reflexivity|].
  split; [|split; [reflexivity | apply exact_gradient_is_derivative]].
  intros k Hk. destruct k as [|[|[|[|k]]]]; try lia; split; reflexivity.
Qed.

Lemma gradient_is_twice_x_witness :
  List.length [1; 2; 3; 4]%float = 4%nat /\
  exists (g : gradient_vector double) (pattern : sparsity_pattern),
    call1 gradient Build_example0_g [1; 2; 3; 4]%float = Returns g /\
    List.length g = 4%nat /\
    call0 dsparsity Build_example0_g = Returns pattern /\
    (forall k, (k < 4)%nat ->
       nth_error g k = Some (2 * nth k [1; 2; 3; 4] 0)%float /\
       nth_error pattern k = Some (0%Z, Z.of_nat k)) /\
    call1 gradient Build_example0_g all_twos = Returns [4; 4; 4; 4]%float /\
    (forall (y : decision_vector R) (k : nat),
       List.length y = 4%nat -> (k < 4)%nat ->
       partial_derivative (fun z => component (call1 fitness Build_example0_g z) 0) k y
                          (component (call1 gradient Build_example0_g y) k)).
Proof.
  split; [reflexivity|].
  apply (gradient_is_twice_x Build_example0_g [1; 2; 3; 4]%float).
  reflexivity.
Defined.

(** C4.  [dsparsity()] returns exactly the pairs (0,0), (0,1), (0,2), (0,3)
    in that order, and for every decision vector of length 4 the vector
    [gradient] returns has length 4, one entry per pair. *)
Theorem dsparsity_is_dense_row (p : example0_g) (v : decision_vector double) :
  List.length v = 4%nat ->
  exists (pattern : sparsity_pattern) (g : gradient_vector double),
    call0 dsparsity p = Returns pattern /\
    pattern = [(0, 0); (0, 1); (0, 2); (0, 3)]%Z /\
    call1 gradient p v = Returns g /\
    List.length g = 4%nat /\
    List.length g = List.length pattern.
Proof.
  intros Hv. destruct (exactly_four v Hv) as (a & b & c & d & ->).
  eexists. eexists.
  split; [unfold call0; rewrite dsparsity_run; reflexivity|].
  split; [reflexivity|].
  split; [apply call_gradient_long|].
  split; reflexivity.
Qed.

Lemma dsparsity_is_dense_row_witness :
  List.length [5; 6; 7; 8]%float = 4%nat /\
  exists (pattern : sparsity_pattern) (g : gradient_vector double),
    call0 dsparsity Build_example0_g = Returns pattern /\
    pattern = [(0, 0); (0, 1); (0, 2); (0, 3)]%Z /\
    call1 gradient Build_example0_g [5; 6; 7; 8]%float = Returns g /\
    List.length g = 4%nat /\
    List.length g = List.length pattern.
Proof.
  split; [reflexivity|].
  apply (dsparsity_is_dense_row Build_example0_g [5; 6; 7; 8]%float).
  reflexivity.
Defined.

(** C5.  [get_bounds()] returns ([-10,-10,-10,-10], [10,10,10,10]), both of
    length 4, and every lower bound is at most the upper bound at the same
    index. *)
Theorem get_bounds_is_box (p : example0_g) :
  exists lb ub : decision_vector double,
    call0 get_bounds p = Returns (lb, ub) /\
    lb = [-10; -10; -10; -10]%float /\
    ub = [10; 10; 10; 10]%float /\
    List.length lb = 4%nat /\
    List.length ub = 4%nat /\
    Forall2 (fun l u => (l <=? u)%float = true) lb ub.
Proof.
  eexists. eexists.
  split; [reflexivity|].
  split; [reflexivity|].
  split; [reflexivity|].
  split; [reflexivity|].
  split; [reflexivity|].
  repeat constructor.
Qed.

(** C6.  [get_n()] returns 4 and [get_nf()] returns 1, and they still do
    after any sequence of calls on the object, which those calls leave as
    it was. *)
Theorem dimensions_are_constant (p : example0_g) (rs : list request) :
  call0 get_n p = Returns 4%Z /\
  call0 get_nf p = Returns 1%Z /\
  run p rs = p /\
  call0 get_n (run p rs) = Returns 4%Z /\
  call0 get_nf (run p rs) = Returns 1%Z.
Proof.
  rewrite run_fixes_object. repeat split.
Qed.

(** C7.  [best_known()] returns a collection with exactly one element, the
    decision vector [0,0,0,0], and [fitness] at that element is [0]. *)
Theorem best_known_is_origin (p : example0_g) :
  exists (points : list (decision_vector double)) (b : decision_vector double),
    call0 best_known p = Returns points /\
    points = [b] /\
    List.length points = 1%nat /\
    b = [0; 0; 0; 0]%float /\
    call1 fitness p b = Returns [0%float].
Proof.
  eexists. eexists.
  split; [reflexivity|].
  repeat split.
Qed.

(** C8, as the code has it.  For every decision vector of length 4 without
    a NaN component the objective is at least 0, which is its value at the
    origin, so the origin is a global minimiser; and the objective is 0
    exactly when every square [x[i]*x[i]] is 0 in binary64.  That is so at
    every vector whose components all compare equal to 0, and also at
    vectors with non-zero components whose squares underflow. *)
Theorem origin_is_a_global_minimum (p : example0_g) (v : decision_vector double) :
  List.length v = 4%nat -> nan_free v ->
  exists f f0 : double,
    call1 fitness p v = Returns [f] /\
    call1 fitness p origin = Returns [f0] /\
    f0 = 0%float /\
    (0 <=? f)%float = true /\
    (f0 <=? f)%float = true /\
    (f = 0%float <-> Forall (fun a => square a = 0%float) v) /\
    (at_origin v -> f = 0%float).
Proof.
  intros Hv Hnan. destruct (exactly_four v Hv) as (a & b & c & d & ->).
  pose proof (sum_of_squares_zero_iff a b c d Hnan) as Hzero.
  inversion_clear Hnan as [|? ? Ha Hnan1]. inversion_clear Hnan1 as [|? ? Hb Hnan2].
  inversion_clear Hnan2 as [|? ? Hc Hnan3]. inversion_clear Hnan3 as [|? ? Hd _].
  exists (square a + square b + square c + square d)%float, 0%float.
  assert (Hplus : sign_plus (Prim2SF (square a + square b + square c + square d)))
    by (repeat apply add_plus; apply square_plus; assumption).
  split; [reflexivity|].
  split; [reflexivity|].
  split; [reflexivity|].
  split; [apply zero_leb_plus, Hplus|].
  split; [apply zero_leb_plus, Hplus|].
  split; [exact Hzero|].
  intros Ho.
  inversion_clear Ho as [|? ? Za Ho1]. inversion_clear Ho1 as [|? ? Zb Ho2].
  inversion_clear Ho2 as [|? ? Zc Ho3]. inversion_clear Ho3 as [|? ? Zd _].
  rewrite (square_of_zero a Za), (square_of_zero b Zb),
    (square_of_zero c Zc), (square_of_zero d Zd).
  reflexivity.
Qed.

Lemma origin_is_a_global_minimum_witness :
  List.length [3; -4; 0; 1]%float = 4%nat /\
  nan_free [3; -4; 0; 1]%float /\
  exists f f0 : double,
    call1 fitness Build_example0_g [3; -4; 0; 1]%float = Returns [f] /\
    call1 fitness Build_example0_g origin = Returns [f0] /\
    f0 = 0%float /\
    (0 <=? f)%float = true /\
    (f0 <=? f)%float = true /\
    (f = 0%float <-> Forall (fun a => square a = 0%float) [3; -4; 0; 1]%float) /\
    (at_origin [3; -4; 0; 1]%float -> f = 0%float).
Proof.
  assert (Hn : nan_free [3; -4; 0; 1]%float) by (repeat constructor).
  split; [reflexivity|]. split; [exact Hn|].
  exact (origin_is_a_global_minimum Build_example0_g [3; -4; 0; 1]%float eq_refl Hn).
Defined.

(** C8, as stated, fails in binary64.  The vector [2^-600, 0, 0, 0] has
    length 4, lies in the box and is not the origin, yet its objective is 0,
    because the square 2^-1200 underflows; and at [NaN, 0, 0, 0] the
    objective is NaN, which is not [>= 0]. *)
Lemma fitness_zero_away_from_origin :
  List.length [tiny; 0; 0; 0]%float = 4%nat /\
  ((-10 <=? tiny)%float = true /\ (tiny <=? 10)%float = true) /\
  call1 fitness Build_example0_g [tiny; 0; 0; 0]%float = Returns [0%float] /\
  (tiny =? 0)%float = false /\
  ~ at_origin [tiny; 0; 0; 0]%float /\
  [tiny; 0; 0; 0]%float <> origin /\
  call1 fitness Build_example0_g [nan; 0; 0; 0]%float = Returns [nan] /\
  (0 <=? nan)%float = false.
Proof.
  split; [reflexivity|].
  split; [split; reflexivity|].
  split; [reflexivity|].
  split; [reflexivity|].
  split; [intros H; inversion_clear H as [|? ? Ht _]; vm_compute in Ht; discriminate|].
  split; [|split; reflexivity].
  intros H.
  apply (f_equal (fun w => (nth 0 w 0 =? 0)%float)) in H.
  vm_compute in H. discriminate.
Qed.




(** C10.  [fitness] and [gradient] have no length check: on every decision
    vector of length at least 4 they return, using the first four components
    only (a fifth one is ignored); they never throw; and they read out of
    range exactly on the vectors shorter than 4. *)
Theorem no_length_check (p : example0_g) (v : decision_vector double) :
  (4 <= List.length v)%nat ->
  (exists f, call1 fitness p v = Returns [f]) /\
  (exists g, call1 gradient p v = Returns g /\ List.length g = 4%nat) /\
  call1 fitness p v = call1 fitness p (firstn 4 v) /\
  call1 gradient p v = call1 gradient p (firstn 4 v) /\
  call1 fitness p [1; 1; 1; 1; 7]%float = call1 fitness p [1; 1; 1; 1]%float /\
  (forall (w : decision_vector double) (e : exception),
     call1 fitness p w <> Throws e /\ call1 gradient p w <> Throws e) /\
  (forall w : decision_vector double,
     (call1 fitness p w = Undefined <-> (List.length w < 4)%nat) /\
     (call1 gradient p w = Undefined <-> (List.length w < 4)%nat)).
Proof.
  intros Hv. destruct (at_least_four v Hv) as (a & b & c & d & rest & ->).
  split; [eexists; apply call_fitness_long|].
  split; [eexists; split; [apply call_gradient_long | reflexivity]|].
  split; [reflexivity|].
  split; [reflexivity|].
  split; [reflexivity|].
  split.
  - intros w e. split;
      [apply call_fitness_never_throws | apply call_gradient_never_throws].
  - intros w. split;
      [apply call_fitness_undefined | apply call_gradient_undefined].
Qed.

Lemma no_length_check_witness :
  (4 <= List.length [1; 2; 3; 4; 5]%float)%nat /\
  (exists f, call1 fitness Build_example0_g [1; 2; 3; 4; 5]%float = Returns [f]) /\
  (exists g, call1 gradient Build_example0_g [1; 2; 3; 4; 5]%float = Returns g
             /\ List.length g = 4%nat).
Proof.
  assert (H : (4 <= List.length [1; 2; 3; 4; 5]%float)%nat) by (simpl; lia).
  split; [exact H|].
  pose proof (no_length_check Build_example0_g [1; 2; 3; 4; 5]%float H) as (Hf & Hg & _).
  split; [exact Hf | exact Hg].
Defined.


(** * Further properties of the methods *)

(** ** binary64: negation, commutation, NaN and infinity *)

Section Signs.
Variables prec emax : Z.

Lemma binary_round_aux_opp s m e l :
  binary_round_aux prec emax (negb s) m e l
  = SFopp (binary_round_aux prec emax s m e l).
Proof.
  unfold binary_round_aux.
  destruct (shr_fexp prec emax m e l) as [mrs' e'].
  destruct (shr_fexp prec emax _ e' loc_Exact) as [mrs'' e''].
  destruct (shr_m mrs'') as [|q|q]; simpl; try reflexivity.
  destruct (e'' <=? emax - prec)%Z; reflexivity.
Qed.

Lemma SFmul_opp_opp f g :
  SFmul prec emax (SFopp f) (SFopp g) = SFmul prec emax f g.
Proof.
  destruct f as [[|]|[|]| |[|] m e]; destruct g as [[|]|[|]| |[|] n e']; reflexivity.
Qed.

Lemma SFmul_opp_r f g :
  SFmul prec emax f (SFopp g) = SFopp (SFmul prec emax f g).
Proof.
  destruct f as [[|]|[|]| |[|] m e]; destruct g as [[|]|[|]| |[|] n e'];
    try reflexivity; simpl;
    first [apply (binary_round_aux_opp false) | apply (binary_round_aux_opp true)].
Qed.

Lemma SFadd_comm f g : SFadd prec emax f g = SFadd prec emax g f.
Proof.
  destruct f as [[|]|[|]| |[|] m e]; destruct g as [[|]|[|]| |[|] n e'];
    try reflexivity; simpl; rewrite (Z.min_comm e' e); f_equal; lia.
Qed.

Lemma SFadd_infinity_plus f :
  sign_plus f ->
  SFadd prec emax f (S754_infinity false) = S754_infinity false /\
  SFadd prec emax (S754_infinity false) f = S754_infinity false.
Proof.
  destruct f as [[|]|[|]| |[|] m e]; simpl; try contradiction; intros _; split; reflexivity.
Qed.

Lemma sign_plus_not_nan f : sign_plus f -> f <> S754_nan.
Proof. intros H ->. exact H. Qed.

End Signs.

Lemma is_nan_spec (a : double) : PrimFloat.is_nan a = true <-> Prim2SF a = S754_nan.
Proof.
  unfold PrimFloat.is_nan. rewrite eqb_spec. unfold SFeqb.
  destruct (Prim2SF a) as [s|[|]| |[|] m e]; simpl;
    rewrite ?Z.compare_refl, ?Pos.compare_cont_refl; simpl; split; intros H; try discriminate; reflexivity.
Qed.

Lemma is_nan_false_spec (a : double) :
  PrimFloat.is_nan a = false <-> Prim2SF a <> S754_nan.
Proof.
  rewrite <- is_nan_spec. destruct (PrimFloat.is_nan a); split; congruence.
Qed.

Lemma square_opp (a : double) : (- a * - a)%float = (a * a)%float.
Proof.
  apply Prim2SF_inj. rewrite !mul_spec, !opp_spec. apply SFmul_opp_opp.
Qed.

Lemma mul_opp_r (b a : double) : (b * - a)%float = (- (b * a))%float.
Proof.
  apply Prim2SF_inj. rewrite opp_spec, !mul_spec, opp_spec. apply SFmul_opp_r.
Qed.

Lemma add_comm_double (a b : double) : (a + b)%float = (b + a)%float.
Proof.
  apply Prim2SF_inj. rewrite !add_spec. apply SFadd_comm.
Qed.

Lemma square_nan_or_plus (a : double) :
  nan_or_plus (a * a)%float /\ PrimFloat.is_nan (a * a)%float = PrimFloat.is_nan a.
Proof.
  destruct (PrimFloat.is_nan a) eqn:Ha.
  - assert (Hn : Prim2SF (a * a) = S754_nan).
    { rewrite mul_spec. apply is_nan_spec in Ha. rewrite Ha. reflexivity. }
    split; [left; exact Hn | now apply is_nan_spec].
  - pose proof (square_plus a Ha) as Hp. unfold square in Hp.
    split; [right; exact Hp|].
    apply is_nan_false_spec, sign_plus_not_nan, Hp.
Qed.

Lemma add_nan_or_plus (u w : double) :
  nan_or_plus u -> nan_or_plus w ->
  nan_or_plus (u + w)%float /\
  PrimFloat.is_nan (u + w)%float = PrimFloat.is_nan u || PrimFloat.is_nan w.
Proof.
  intros [Hu | Hu] [Hw | Hw].
  - assert (Hn : Prim2SF (u + w) = S754_nan) by (rewrite add_spec, Hu; reflexivity).
    split; [left; exact Hn|].
    rewrite (proj2 (is_nan_spec _) Hn), (proj2 (is_nan_spec _) Hu). reflexivity.
  - assert (Hn : Prim2SF (u + w) = S754_nan) by (rewrite add_spec, Hu; reflexivity).
    split; [left; exact Hn|].
    rewrite (proj2 (is_nan_spec _) Hn), (proj2 (is_nan_spec _) Hu). reflexivity.
  - assert (Hn : Prim2SF (u + w) = S754_nan).
    { rewrite add_spec, Hw. destruct (Prim2SF u); reflexivity. }
    split; [left; exact Hn|].
    rewrite (proj2 (is_nan_spec _) Hn), (proj2 (is_nan_spec _) Hw).
    now rewrite orb_true_r.
  - pose proof (add_plus u w Hu Hw) as Hp.
    split; [right; exact Hp|].
    rewrite (proj2 (is_nan_false_spec _) (sign_plus_not_nan _ Hp)),
      (proj2 (is_nan_false_spec _) (sign_plus_not_nan _ Hu)),
      (proj2 (is_nan_false_spec _) (sign_plus_not_nan _ Hw)).
    reflexivity.
Qed.

Lemma classify_plus (f : double) :
  sign_plus (Prim2SF f) -> In (classify f) [PZero; PSubn; PNormal; PInf].
Proof.
  rewrite classify_spec. unfold SF64classify, SFclassify.
  destruct (Prim2SF f) as [[|]|[|]| |[|] m e]; cbn [sign_plus];
    try contradiction; intros _.
  - simpl; auto.
  - simpl; auto.
  - destruct (Z.eqb _ _); simpl; auto.
Qed.

Lemma negate_length (v : decision_vector double) :
  List.length (negate v) = List.length v.
Proof. apply length_map. Qed.

Lemma is_infinity_spec (a : double) :
  PrimFloat.is_infinity a = true -> exists s, Prim2SF a = S754_infinity s.
Proof.
  unfold PrimFloat.is_infinity. rewrite eqb_spec, abs_spec.
  change (Prim2SF infinity) with (S754_infinity false).
  destruct (Prim2SF a) as [s|s| |s m e]; try discriminate.
  intros _. now exists s.
Qed.

Lemma square_infinite (a : double) :
  PrimFloat.is_infinity a = true -> plus_infinite (a * a)%float.
Proof.
  intros H. destruct (is_infinity_spec a H) as [s Hs].
  unfold plus_infinite. rewrite mul_spec, Hs. simpl. now rewrite xorb_nilpotent.
Qed.

Lemma plus_infinite_plus (u : double) : plus_infinite u -> sign_plus (Prim2SF u).
Proof. unfold plus_infinite. intros ->. exact I. Qed.

Lemma add_infinite (u w : double) :
  sign_plus (Prim2SF u) -> sign_plus (Prim2SF w) ->
  plus_infinite u \/ plus_infinite w -> plus_infinite (u + w)%float.
Proof.
  unfold plus_infinite. intros Hu Hw [H | H]; rewrite add_spec, H.
  - apply SFadd_infinity_plus, Hw.
  - apply SFadd_infinity_plus, Hu.
Qed.

Lemma double_of_zero (a : double) :
  (a =? 0)%float = true -> (2 * a =? 0)%float = true.
Proof.
  intros H. destruct (eqb_zero_spec a H) as [s Hs].
  rewrite eqb_spec, mul_spec, Hs. destruct s; reflexivity.
Qed.

Section Doubling.
Variables prec emax : Z.

Lemma SFmul_finite_not_nan s m e f :
  f <> S754_nan -> SFmul prec emax (S754_finite s m e) f <> S754_nan.
Proof.
  intros Hf. destruct f as [t|t| |t n e']; simpl; try discriminate; [now elim Hf|].
  destruct (xorb s t).
  - rewrite (binary_round_aux_opp prec emax false).
    pose proof (binary_round_aux_plus prec emax (Z.pos (m * n)) (e + e') loc_Exact) as H.
    destruct (binary_round_aux prec emax false _ _ _) as [[|]|[|]| |[|] ? ?];
      simpl in *; try discriminate; exfalso; apply H; lia.
  - apply sign_plus_not_nan, binary_round_aux_plus. lia.
Qed.

(** Multiplying by a positive finite number keeps the side of zero. *)
Lemma SFmul_positive_sign m e f :
  (SFleb (S754_zero false) f = true ->
   SFleb (S754_zero false) (SFmul prec emax (S754_finite false m e) f) = true) /\
  (SFleb f (S754_zero false) = true ->
   SFleb (SFmul prec emax (S754_finite false m e) f) (S754_zero false) = true).
Proof.
  destruct f as [[|]|[|]| |[|] n e']; split; intros H;
    try discriminate H; try reflexivity.
  - simpl SFmul. rewrite (binary_round_aux_opp prec emax false).
    pose proof (binary_round_aux_plus prec emax (Z.pos (m * n)) (e + e') loc_Exact) as Hp.
    destruct (binary_round_aux prec emax false _ _ _) as [[|]|[|]| |[|] ? ?];
      try reflexivity; exfalso; apply Hp; lia.
  - apply SFleb_zero_plus. simpl SFmul. apply binary_round_aux_plus. lia.
Qed.

End Doubling.

Lemma two_is_finite : exists m e, Prim2SF 2 = S754_finite false m e.
Proof. eexists. eexists. reflexivity. Qed.

Lemma twice_nan (a : double) :
  PrimFloat.is_nan (2 * a)%float = PrimFloat.is_nan a.
Proof.
  destruct two_is_finite as (m & e & H2).
  destruct (PrimFloat.is_nan a) eqn:Ha.
  - apply is_nan_spec. apply is_nan_spec in Ha. rewrite mul_spec, H2, Ha. reflexivity.
  - apply is_nan_false_spec. apply is_nan_false_spec in Ha.
    rewrite mul_spec, H2. apply SFmul_finite_not_nan, Ha.
Qed.

Lemma twice_sign (a : double) :
  ((0 <=? a)%float = true -> (0 <=? 2 * a)%float = true) /\
  ((a <=? 0)%float = true -> (2 * a <=? 0)%float = true).
Proof.
  destruct two_is_finite as (m & e & H2).
  rewrite !leb_spec, mul_spec, H2. change (Prim2SF 0) with (S754_zero false).
  apply SFmul_positive_sign.
Qed.

Lemma pairs_from_done (i : Z) : (4 <= i)%Z -> pairs_from i = [].
Proof.
  intros H. unfold pairs_from. replace (Z.to_nat (4 - i)) with 0%nat by lia. reflexivity.
Qed.

Lemma pairs_from_step (i : Z) :
  (i < 4)%Z -> pairs_from i = (0%Z, i) :: pairs_from (i + 1).
Proof.
  intros H. unfold pairs_from.
  replace (Z.to_nat (4 - i)) with (S (Z.to_nat (4 - (i + 1)))) by lia.
  cbn [seq map]. f_equal.
  - f_equal. lia.
  - rewrite <- seq_shift, map_map. apply map_ext. intros n. f_equal. lia.
Qed.


(** ** The loop of dsparsity *)

(** X1.  Entered with the counter at any [i >= 0] and any pattern built so
    far, the loop of [dsparsity] returns that pattern followed by the pairs
    (0,i), ..., (0,3) in increasing order, and returns it unchanged when
    [i >= 4]. *)
Theorem dsparsity_loop_appends (i : Z) (retval : sparsity_pattern) :
  (0 <= i)%Z -> dsparsity_loop i retval = (retval ++ pairs_from i)%list.
Proof.
  funelim (dsparsity_loop i retval); intros Hi.
  - match goal with IH : (0 <= uint_succ _)%Z -> _ |- _ => rename IH into IH' end.
    assert (Hs : uint_succ i = (i + 1)%Z)
      by (unfold uint_succ; apply Z.mod_small; lia).
    rewrite IH' by (rewrite Hs; lia).
    rewrite Hs, (pairs_from_step i) by assumption.
    unfold push_back. now rewrite <- app_assoc.
  - rewrite pairs_from_done by lia. now rewrite app_nil_r.
Qed.

Lemma dsparsity_loop_appends_witness :
  (0 <= 2)%Z /\
  dsparsity_loop 2 [(5, 7)]%Z = [(5, 7); (0, 2); (0, 3)]%Z /\
  (0 <= 9)%Z /\
  dsparsity_loop 9 [(5, 7)]%Z = [(5, 7)]%Z.
Proof.
  assert (H2 : (0 <= 2)%Z) by lia. assert (H9 : (0 <= 9)%Z) by lia.
  split; [exact H2|].
  split; [exact (dsparsity_loop_appends 2 [(5, 7)]%Z H2)|].
  split; [exact H9|].
  exact (dsparsity_loop_appends 9 [(5, 7)]%Z H9).
Defined.

(** X2.  The pattern of [dsparsity()] is the full Jacobian pattern for the
    dimensions the object reports: a pair (r,c) occurs in it exactly when
    [0 <= r < get_nf()] and [0 <= c < get_n()], no pair occurs twice, and
    there are [get_nf() * get_n()] pairs. *)
Theorem sparsity_pattern_is_full (p : example0_g) :
  exists (pattern : sparsity_pattern) (n nf : size_type),
    call0 dsparsity p = Returns pattern /\
    call0 get_n p = Returns n /\
    call0 get_nf p = Returns nf /\
    (forall r c : Z, In (r, c) pattern <-> (0 <= r < nf /\ 0 <= c < n)%Z) /\
    NoDup pattern /\
    Z.of_nat (List.length pattern) = (nf * n)%Z.
Proof.
  exists [(0, 0); (0, 1); (0, 2); (0, 3)]%Z, 4%Z, 1%Z.
  split; [unfold call0; rewrite dsparsity_run; reflexivity|].
  split; [reflexivity|]. split; [reflexivity|].
  split; [|split; [|reflexivity]].
  - intros r c. cbn. split.
    + intros [H | [H | [H | [H | []]]]]; inversion H; lia.
    + intros [Hr Hc].
      assert (r = 0%Z) as -> by lia.
      assert (c = 0 \/ c = 1 \/ c = 2 \/ c = 3)%Z as [-> | [-> | [-> | ->]]] by lia; auto 10.
  - cbn. repeat constructor; cbn; intros H;
      repeat (destruct H as [H | H]; [discriminate|]); exact H.
Qed.

(** ** Symmetries of the objective and its gradient in binary64 *)

(** X3.  The objective is even: negating every component of the input
    leaves the result of [fitness] unchanged, whatever the length of the
    input (on a vector shorter than 4 both calls read out of range). *)
Theorem fitness_is_even (p : example0_g) (v : decision_vector double) :
  call1 fitness p (negate v) = call1 fitness p v.
Proof.
  destruct (le_lt_dec 4 (List.length v)) as [Hlong | Hshort].
  - destruct (at_least_four v Hlong) as (a & b & c & d & rest & ->).
    simpl negate. rewrite !call_fitness_long. cbn [add mul Scalar_double].
    now rewrite !square_opp.
  - rewrite (proj2 (call_fitness_undefined p v) Hshort).
    apply call_fitness_undefined. now rewrite negate_length.
Qed.

(** X4.  The gradient is odd: on the negated input [gradient] returns the
    negation of what it returns on the input, whatever its length. *)
Theorem gradient_is_odd (p : example0_g) (v : decision_vector double) :
  call1 gradient p (negate v) = outcome_map negate (call1 gradient p v).
Proof.
  destruct (le_lt_dec 4 (List.length v)) as [Hlong | Hshort].
  - destruct (at_least_four v Hlong) as (a & b & c & d & rest & ->).
    simpl negate. rewrite !call_gradient_long.
    cbn [add mul Scalar_double outcome_map negate map].
    now rewrite !mul_opp_r.
  - rewrite (proj2 (call_gradient_undefined p v) Hshort).
    apply call_gradient_undefined. now rewrite negate_length.
Qed.

(** X5.  Exchanging the first two components of the input never changes
    the result of [fitness]; other reorderings can, because the squares are
    added from left to right in binary64: [2^27, 1, 1, 1] and
    [1, 1, 1, 2^27] give different values. *)
Theorem fitness_swap_first_two (p : example0_g) (a b : double) (rest : decision_vector double) :
  call1 fitness p (b :: a :: rest) = call1 fitness p (a :: b :: rest) /\
  call1 fitness p [0x1p27; 1; 1; 1]%float <> call1 fitness p [1; 1; 1; 0x1p27]%float.
Proof.
  split.
  - destruct rest as [|c [|d rest]]; try reflexivity.
    rewrite !call_fitness_long. cbn [add mul Scalar_double].
    now rewrite (add_comm_double (b * b)%float (a * a)%float).
  - intros H.
    apply (f_equal (fun o => match o with
                             | Returns [f] => (f =? 0x1p54)%float
                             | _ => false
                             end)) in H.
    vm_compute in H. discriminate.
Qed.

(** ** NaN, infinity and sign *)

(** X6.  On a decision vector of length 4 the objective is NaN exactly when
    some component is NaN; otherwise it is +0, a positive subnormal or
    normal number, or +infinity, never a negative number and never -0. *)
Theorem fitness_nan_exactly (p : example0_g) (v : decision_vector double) :
  List.length v = 4%nat ->
  exists f : double,
    call1 fitness p v = Returns [f] /\
    (PrimFloat.is_nan f = true <-> Exists (fun a => PrimFloat.is_nan a = true) v) /\
    (PrimFloat.is_nan f = false -> In (classify f) [PZero; PSubn; PNormal; PInf]).
Proof.
  intros Hv. destruct (exactly_four v Hv) as (a & b & c & d & ->).
  exists (a * a + b * b + c * c + d * d)%float.
  split; [reflexivity|].
  destruct (square_nan_or_plus a) as [Pa Na]. destruct (square_nan_or_plus b) as [Pb Nb].
  destruct (square_nan_or_plus c) as [Pc Nc]. destruct (square_nan_or_plus d) as [Pd Nd].
  destruct (add_nan_or_plus _ _ Pa Pb) as [Pab Nab].
  destruct (add_nan_or_plus _ _ Pab Pc) as [Pabc Nabc].
  destruct (add_nan_or_plus _ _ Pabc Pd) as [Pf Nf].
  split.
  - rewrite Nf, Nabc, Nab, Na, Nb, Nc, Nd. rewrite !orb_true_iff.
    rewrite !Exists_cons, Exists_nil. tauto.
  - intros Hn. destruct Pf as [Hf | Hf].
    + apply is_nan_spec in Hf. congruence.
    + apply classify_plus, Hf.
Qed.

Lemma fitness_nan_exactly_witness :
  List.length [1; nan; -3; 0]%float = 4%nat /\
  exists f : double,
    call1 fitness Build_example0_g [1; nan; -3; 0]%float = Returns [f] /\
    (PrimFloat.is_nan f = true
     <-> Exists (fun a => PrimFloat.is_nan a = true) [1; nan; -3; 0]%float) /\
    (PrimFloat.is_nan f = false -> In (classify f) [PZero; PSubn; PNormal; PInf]).
Proof.
  split; [reflexivity|].
  exact (fitness_nan_exactly Build_example0_g [1; nan; -3; 0]%float eq_refl).
Defined.

(** X7.  On a decision vector of length 4 without NaN in which some
    component is infinite (of either sign), the objective is +infinity. *)
Theorem fitness_of_infinite (p : example0_g) (v : decision_vector double) :
  List.length v = 4%nat -> nan_free v ->
  Exists (fun a => PrimFloat.is_infinity a = true) v ->
  call1 fitness p v = Returns [infinity].
Proof.
  intros Hv Hnan Hinf. destruct (exactly_four v Hv) as (a & b & c & d & ->).
  inversion_clear Hnan as [|? ? Ha Hnan1]. inversion_clear Hnan1 as [|? ? Hb Hnan2].
  inversion_clear Hnan2 as [|? ? Hc Hnan3]. inversion_clear Hnan3 as [|? ? Hd _].
  pose proof (square_plus a Ha) as Pa. pose proof (square_plus b Hb) as Pb.
  pose proof (square_plus c Hc) as Pc. pose proof (square_plus d Hd) as Pd.
  unfold square in *.
  pose proof (add_plus _ _ Pa Pb) as Pab. pose proof (add_plus _ _ Pab Pc) as Pabc.
  rewrite call_fitness_long. cbn [add mul Scalar_double].
  do 2 f_equal. apply Prim2SF_inj. change (Prim2SF infinity) with (S754_infinity false).
  rewrite !Exists_cons, Exists_nil in Hinf.
  apply add_infinite; trivial.
  destruct Hinf as [H | [H | [H | [H | []]]]].
  - left. apply add_infinite; trivial. left. apply add_infinite; trivial.
    left. apply square_infinite, H.
  - left. apply add_infinite; trivial. left. apply add_infinite; trivial.
    right. apply square_infinite, H.
  - left. apply add_infinite; trivial. right. apply square_infinite, H.
  - right. apply square_infinite, H.
Qed.

Lemma fitness_of_infinite_witness :
  List.length [1; 2; neg_infinity; 0]%float = 4%nat /\
  nan_free [1; 2; neg_infinity; 0]%float /\
  Exists (fun a => PrimFloat.is_infinity a = true) [1; 2; neg_infinity; 0]%float /\
  call1 fitness Build_example0_g [1; 2; neg_infinity; 0]%float = Returns [infinity].
Proof.
  assert (Hn : nan_free [1; 2; neg_infinity; 0]%float) by (repeat constructor).
  assert (Hi : Exists (fun a => PrimFloat.is_infinity a = true)
                      [1; 2; neg_infinity; 0]%float)
    by (right; right; left; reflexivity).
  split; [reflexivity|]. split; [exact Hn|]. split; [exact Hi|].
  exact (fitness_of_infinite Build_example0_g [1; 2; neg_infinity; 0]%float eq_refl Hn Hi).
Defined.

(** X8.  On a decision vector of length 4, entry [k] of the gradient is NaN
    exactly when component [k] of the input is, and it lies on the same
    side of zero: it is [>= 0] when the component is, and [<= 0] when the
    component is. *)
Theorem gradient_follows_sign (p : example0_g) (v : decision_vector double) (k : nat) :
  List.length v = 4%nat -> (k < 4)%nat ->
  exists (g : gradient_vector double) (a e : double),
    call1 gradient p v = Returns g /\
    nth_error v k = Some a /\ nth_error g k = Some e /\
    PrimFloat.is_nan e = PrimFloat.is_nan a /\
    ((0 <=? a)%float = true -> (0 <=? e)%float = true) /\
    ((a <=? 0)%float = true -> (e <=? 0)%float = true).
Proof.
  intros Hv Hk. destruct (exactly_four v Hv) as (a & b & c & d & ->).
  eexists.
  destruct k as [|[|[|[|k]]]]; try lia;
    eexists; eexists; (split; [apply call_gradient_long|]);
    (split; [reflexivity|]); (split; [reflexivity|]);
    (split; [apply twice_nan | apply twice_sign]).
Qed.

Lemma gradient_follows_sign_witness :
  List.length [1; -2; 3; -4]%float = 4%nat /\ (1 < 4)%nat /\
  exists (g : gradient_vector double) (a e : double),
    call1 gradient Build_example0_g [1; -2; 3; -4]%float = Returns g /\
    nth_error [1; -2; 3; -4]%float 1 = Some a /\ nth_error g 1 = Some e /\
    PrimFloat.is_nan e = PrimFloat.is_nan a /\
    ((0 <=? a)%float = true -> (0 <=? e)%float = true) /\
    ((a <=? 0)%float = true -> (e <=? 0)%float = true).
Proof.
  assert (Hk : (1 < 4)%nat) by lia.
  split; [reflexivity|]. split; [exact Hk|].
  exact (gradient_follows_sign Build_example0_g [1; -2; 3; -4]%float 1 eq_refl Hk).
Defined.

(** X9.  The gradient vanishes at the origin: on a decision vector of
    length 4 whose components all compare equal to zero (zeros of either
    sign), every entry of the gradient compares equal to zero. *)
Theorem gradient_vanishes_at_origin (p : example0_g) (v : decision_vector double) :
  List.length v = 4%nat -> at_origin v ->
  exists g : gradient_vector double,
    call1 gradient p v = Returns g /\ List.length g = 4%nat /\ at_origin g.
Proof.
  intros Hv Ho. destruct (exactly_four v Hv) as (a & b & c & d & ->).
  inversion_clear Ho as [|? ? Za Ho1]. inversion_clear Ho1 as [|? ? Zb Ho2].
  inversion_clear Ho2 as [|? ? Zc Ho3]. inversion_clear Ho3 as [|? ? Zd _].
  eexists. split; [apply call_gradient_long|]. split; [reflexivity|].
  repeat constructor; apply double_of_zero; assumption.
Qed.

Lemma gradient_vanishes_at_origin_witness :
  List.length [0; -0; 0; -0]%float = 4%nat /\
  at_origin [0; -0; 0; -0]%float /\
  exists g : gradient_vector double,
    call1 gradient Build_example0_g [0; -0; 0; -0]%float = Returns g /\
    List.length g = 4%nat /\ at_origin g.
Proof.
  assert (Ho : at_origin [0; -0; 0; -0]%float) by (repeat constructor).
  split; [reflexivity|]. split; [exact Ho|].
  exact (gradient_vanishes_at_origin Build_example0_g [0; -0; 0; -0]%float eq_refl Ho).
Defined.
